(** * Voice-controlled LED: a shallow embedding of [voice.py]

    The program listens on a microphone, feeds fixed-size frames to a
    streaming speech recogniser and drives one GPIO pin (an LED) from the
    keywords found in each final transcription.

    The Python code is a sequence of calls into three libraries (RPi.GPIO,
    PyAudio, Vosk) with one [while True] loop guarded by
    [try / except KeyboardInterrupt / finally].  It is embedded as a state
    and exception monad over a [world] that holds the state of the LED pin
    and the chronological trace of library calls and printed lines.  The
    libraries are an environment [env]: it decides, for the call issued at
    each instant, whether the call raises and which value it returns. *)

From Stdlib Require Import String Ascii List ZArith Bool Arith Lia.
Import ListNotations.
Open Scope string_scope.
Open Scope list_scope.

(** ** Text *)

(** Python [str] values are modelled as byte strings.  [str.lower] is the
    ASCII one: letters 'A'..'Z' go to 'a'..'z', every other byte is kept
    (Unicode lowercasing maps no character outside ASCII to 'o', 'n' or
    'f', the only letters the program looks for). *)
Module PyStr.

Definition lower_char (c : ascii) : ascii :=
  let n := nat_of_ascii c in
  if andb (65 <=? n)%nat (n <=? 90)%nat then ascii_of_nat (n + 32) else c.

(** [s.lower()] *)
Fixpoint lower (s : string) : string :=
  match s with
  | EmptyString => EmptyString
  | String c s' => String (lower_char c) (lower s')
  end.

(** [needle in s] *)
Fixpoint contains (needle s : string) : bool :=
  String.prefix needle s
  || match s with
     | EmptyString => false
     | String _ s' => contains needle s'
     end.

End PyStr.

(** ** Constants (lines 7-10) *)

Definition LED_PIN : Z := 18.
Definition MODEL_PATH : string := "/home/pi/vosk-model".
Definition AUDIO_RATE : Z := 16000.
Definition BUFFER_SIZE : Z := 4096.

(** ** Exceptions, library calls, events *)

Inductive exn : Type :=
| KeyboardInterrupt
| FileNotFoundError (msg : string)
| OSError
| RuntimeError
| OtherException (name : string).

(** The test of the clause [except KeyboardInterrupt]. *)
Definition is_KeyboardInterrupt (e : exn) : bool :=
  match e with
  | KeyboardInterrupt => true
  | _ => false
  end.

Inductive level : Type := LOW | HIGH.

(** The library calls the program makes, with the arguments that vary. *)
Inductive call : Type :=
| GPIO_setmode                      (* GPIO.setmode(GPIO.BCM) *)
| GPIO_setup (pin : Z)              (* GPIO.setup(pin, GPIO.OUT) *)
| GPIO_output (pin : Z) (l : level) (* GPIO.output(pin, l) *)
| GPIO_cleanup                      (* GPIO.cleanup() *)
| Model (path : string)             (* Model(path) *)
| KaldiRecognizer (rate : Z)        (* KaldiRecognizer(model, rate) *)
| PyAudio                           (* pyaudio.PyAudio() *)
| PyAudio_open (rate frames : Z)    (* p.open(format=paInt16, channels=1, ...) *)
| start_stream                      (* stream.start_stream() *)
| read (frames : Z)                 (* stream.read(frames) *)
| AcceptWaveform (data : list Byte.byte) (* recognizer.AcceptWaveform(data) *)
| Result                            (* recognizer.Result() *)
| PartialResult                     (* recognizer.PartialResult() *)
| stop_stream                       (* stream.stop_stream() *)
| close                             (* stream.close() *)
| terminate.                        (* p.terminate() *)

(** What an observer of a run sees: each library call with the exception
    it raised, if any, and each printed line. *)
Inductive event : Type :=
| Invoked (c : call) (raised : option exn)
| Printed (line : string).

(** The LED pin: not driven (an input, as before [GPIO.setup] and after
    [GPIO.cleanup]) or driven at a level. *)
Inductive pin_state : Type :=
| Floating
| Driven (l : level).

(** The actuator is High exactly when the pin is driven high. *)
Definition actuator (p : pin_state) : level :=
  match p with
  | Driven HIGH => HIGH
  | _ => LOW
  end.

Record world : Type := mkWorld {
  clock : nat;            (* number of library calls made so far *)
  led : pin_state;        (* state of pin LED_PIN *)
  trace : list event      (* oldest event first *)
}.

(** The state in which the process starts. *)
Definition boot : world := mkWorld 0 Floating [].

(** The libraries and the operating system.  [raises t c] is the exception
    raised by call [c] when it is the call made at instant [t] ([None]: it
    returns); an operator interrupt is delivered as [KeyboardInterrupt]
    raised by the call during which it arrives.  The other fields give the
    value a call returns when it does. *)
Record env : Type := mkEnv {
  raises : nat -> call -> option exn;
  path_exists : string -> bool;       (* os.path.exists *)
  microphone : nat -> list Byte.byte; (* stream.read *)
  utterance_complete : nat -> bool;   (* recognizer.AcceptWaveform *)
  final_json : nat -> string;         (* recognizer.Result *)
  partial_json : nat -> string        (* recognizer.PartialResult *)
}.

(** ** The monad *)

(** A computation returns a value, raises, or is still running when the
    fuel given to the loop is spent ([Pending]). *)
Inductive result (A : Type) : Type :=
| Val (a : A)
| Exc (e : exn)
| Pending.
Arguments Val {A} a.
Arguments Exc {A} e.
Arguments Pending {A}.

Definition M (A : Type) : Type := world -> result A * world.

Definition ret {A} (a : A) : M A := fun w => (Val a, w).

Definition bind {A B} (m : M A) (k : A -> M B) : M B :=
  fun w =>
    match m w with
    | (Val a, w1) => k a w1
    | (Exc e, w1) => (Exc e, w1)
    | (Pending, w1) => (Pending, w1)
    end.

Definition raise {A} (e : exn) : M A := fun w => (Exc e, w).

Definition pending {A} : M A := fun w => (Pending, w).

Declare Scope py_scope.
Delimit Scope py_scope with py.
Notation "x <- m ;; k" := (bind m (fun x => k))
  (at level 61, m at next level, right associativity) : py_scope.
Notation "m ;; k" := (bind m (fun _ => k))
  (at level 61, right associativity) : py_scope.
Open Scope py_scope.

(** [try: body  except <catches>: handler] *)
Definition try_except {A} (body : M A) (catches : exn -> bool)
    (handler : M A) : M A :=
  fun w =>
    match body w with
    | (Exc e, w1) => if catches e then handler w1 else (Exc e, w1)
    | other => other
    end.

(** [try: body  finally: fin].  The [finally] block runs when the body has
    returned or raised; an exception of the block itself replaces the
    outcome of the body. *)
Definition try_finally {A} (body : M A) (fin : M unit) : M A :=
  fun w =>
    match body w with
    | (Pending, w1) => (Pending, w1)
    | (r, w1) =>
        match fin w1 with
        | (Val _, w2) => (r, w2)
        | (Exc e, w2) => (Exc e, w2)
        | (Pending, w2) => (Pending, w2)
        end
    end.

Definition log (ev : event) (w : world) : world :=
  mkWorld (clock w) (led w) (trace w ++ [ev]).

Definition tick (w : world) : world :=
  mkWorld (S (clock w)) (led w) (trace w).

Definition set_led (p : pin_state) (w : world) : world :=
  mkWorld (clock w) p (trace w).

(** What a library call that returns does to the pin.  [GPIO.setup] makes
    the pin an output (its latch is low until written); [GPIO.output]
    drives it; [GPIO.cleanup] makes every channel an input again. *)
Definition effect (c : call) (w : world) : world :=
  match c with
  | GPIO_setup pin => if (pin =? LED_PIN)%Z then set_led (Driven LOW) w else w
  | GPIO_output pin l => if (pin =? LED_PIN)%Z then set_led (Driven l) w else w
  | GPIO_cleanup => set_led Floating w
  | _ => w
  end.

(** [print(line)] *)
Definition print (line : string) : M unit :=
  fun w => (Val tt, log (Printed line) w).

Section Program.

Variable E : env.

(** A library call whose value, when it returns, is [answer] at the
    instant of the call. *)
Definition ask {A} (c : call) (answer : nat -> A) : M A :=
  fun w =>
    match raises E (clock w) c with
    | Some e => (Exc e, tick (log (Invoked c (Some e)) w))
    | None => (Val (answer (clock w)), tick (effect c (log (Invoked c None) w)))
    end.

(** A library call made for its effect. *)
Definition invoke (c : call) : M unit := ask c (fun _ => tt).

(** Lines 13-20. *)
Definition setup_gpio : M unit :=
  invoke GPIO_setmode ;;
  invoke (GPIO_setup LED_PIN) ;;
  invoke (GPIO_output LED_PIN LOW).

(** Lines 23-37.  The recogniser object is the only one of the run; its
    methods are the calls [AcceptWaveform], [Result], [PartialResult]. *)
Definition setup_recognizer : M unit :=
  if negb (path_exists E MODEL_PATH) then
    raise (FileNotFoundError
      "Please download the Vosk model and unpack it to the correct path.")
  else
    invoke (Model MODEL_PATH) ;;
    invoke (KaldiRecognizer AUDIO_RATE).

(** Lines 40-49. *)
Definition setup_audio_stream : M unit :=
  invoke PyAudio ;;
  invoke (PyAudio_open AUDIO_RATE BUFFER_SIZE) ;;
  invoke start_stream.

(** Lines 52-68. *)
Definition handle_command (command_text : string) : M unit :=
  if PyStr.contains "on" command_text then
    print "Command recognized: Turning LED ON" ;;
    invoke (GPIO_output LED_PIN HIGH)
  else if PyStr.contains "off" command_text then
    print "Command recognized: Turning LED OFF" ;;
    invoke (GPIO_output LED_PIN LOW)
  else
    ret tt.

(** Lines 96-102: what [main] does with a final result. *)
Definition dispatch (result : string) : M unit :=
  print ("Full result: " ++ result) ;;
  let command_text := PyStr.lower result in
  handle_command command_text.

(** Lines 87-107: the body of the loop.  [continue] is its return. *)
Definition iteration : M unit :=
  data <- ask (read BUFFER_SIZE) (microphone E) ;;
  if (List.length data =? 0)%nat then
    ret tt
  else
    accepted <- ask (AcceptWaveform data) (utterance_complete E) ;;
    if accepted then
      result <- ask Result (final_json E) ;;
      dispatch result
    else
      partial_result <- ask PartialResult (partial_json E) ;;
      print ("Partial result: " ++ partial_result).

(** Line 86: [while True].  The loop has no [break]; it ends by an
    exception or not at all. *)
Fixpoint capture_loop (fuel : nat) : M unit :=
  match fuel with
  | O => pending
  | S fuel' => iteration ;; capture_loop fuel'
  end.

(** Lines 109-111. *)
Definition on_interrupt : M unit :=
  print "Program interrupted by user.".

(** Lines 113-119. *)
Definition shutdown : M unit :=
  invoke GPIO_cleanup ;;
  invoke stop_stream ;;
  invoke close ;;
  invoke terminate ;;
  print "Cleaned up and exiting...".

(** Lines 84-119: the [try] statement. *)
Definition guarded_loop (fuel : nat) : M unit :=
  try_finally
    (try_except (capture_loop fuel) is_KeyboardInterrupt on_interrupt)
    shutdown.

(** Lines 76-82: what [main] does before the [try] statement. *)
Definition startup : M unit :=
  setup_gpio ;;
  setup_recognizer ;;
  setup_audio_stream ;;
  print "Listening for 'ON' or 'OFF' commands...".

(** Lines 71-119. *)
Definition main (fuel : nat) : M unit :=
  setup_gpio ;;
  setup_recognizer ;;
  setup_audio_stream ;;
  print "Listening for 'ON' or 'OFF' commands..." ;;
  guarded_loop fuel.

End Program.

(** ** Observations on traces *)

(** The events of [w'] that were not yet in [w]. *)
Definition events_since (w w' : world) : list event :=
  skipn (List.length (trace w)) (trace w').

(** The library calls among some events, in order. *)
Fixpoint library_calls (evs : list event) : list call :=
  match evs with
  | [] => []
  | Invoked c _ :: evs' => c :: library_calls evs'
  | Printed _ :: evs' => library_calls evs'
  end.

(** A write to a GPIO output, whether or not it returned. *)
Definition is_actuator_write (c : call) : bool :=
  match c with
  | GPIO_output _ _ => true
  | _ => false
  end.

Definition is_read (c : call) : bool :=
  match c with
  | read _ => true
  | _ => false
  end.

Definition is_final_result (c : call) : bool :=
  match c with
  | Result => true
  | _ => false
  end.

Definition is_cleanup (c : call) : bool :=
  match c with
  | GPIO_cleanup => true
  | _ => false
  end.

(** The calls into the Vosk library. *)
Definition is_recognizer_call (c : call) : bool :=
  match c with
  | Model _ | KaldiRecognizer _ | AcceptWaveform _ | Result | PartialResult => true
  | _ => false
  end.

(** The calls the loop body can make. *)
Definition is_loop_call (c : call) : bool :=
  match c with
  | read _ | AcceptWaveform _ | Result | PartialResult | GPIO_output _ _ => true
  | _ => false
  end.

(** The commands of the specification and its keyword rule, in the
    specification's words: "on" first, then "off", else nothing. *)
Inductive Command : Type := TurnOn | TurnOff | NoCommand.

Definition keyword_rule (text : string) : Command :=
  if PyStr.contains "on" text then TurnOn
  else if PyStr.contains "off" text then TurnOff
  else NoCommand.

(** The actuator call that carries out a command. *)
Definition command_calls (c : Command) : list call :=
  match c with
  | TurnOn => [GPIO_output LED_PIN HIGH]
  | TurnOff => [GPIO_output LED_PIN LOW]
  | NoCommand => []
  end.

(** The level a command asks for. *)
Definition command_level (c : Command) : option level :=
  match c with
  | TurnOn => Some HIGH
  | TurnOff => Some LOW
  | NoCommand => None
  end.

(** The calls of the [finally] block, in program order. *)
Definition shutdown_calls : list call :=
  [GPIO_cleanup; stop_stream; close; terminate].

(** The events of a straight sequence of calls started at instant [t]:
    the sequence stops at the first call that raises. *)
Fixpoint attempt (E : env) (t : nat) (cs : list call) : list event :=
  match cs with
  | [] => []
  | c :: cs' =>
      match raises E t c with
      | Some e => [Invoked c (Some e)]
      | None => Invoked c None :: attempt E (S t) cs'
      end
  end.

(** The exception that ends such a sequence, if any. *)
Fixpoint first_failure (E : env) (t : nat) (cs : list call) : option exn :=
  match cs with
  | [] => None
  | c :: cs' =>
      match raises E t c with
      | Some e => Some e
      | None => first_failure E (S t) cs'
      end
  end.

(** The calls of [setup_gpio], in program order. *)
Definition gpio_setup_calls : list call :=
  [GPIO_setmode; GPIO_setup LED_PIN; GPIO_output LED_PIN LOW].

(** The exception [setup_recognizer] raises when the model is absent. *)
Definition model_not_found : exn :=
  FileNotFoundError
    "Please download the Vosk model and unpack it to the correct path.".

(** The events that follow the exit of the loop, at instant [t], with
    exception [e]: the handler's line for an interrupt, then the [finally]
    block. *)
Definition exit_events (E : env) (e : exn) (t : nat) : list event :=
  (if is_KeyboardInterrupt e
   then [Printed "Program interrupted by user."] else []) ++
  attempt E t shutdown_calls ++
  match first_failure E t shutdown_calls with
  | None => [Printed "Cleaned up and exiting..."]
  | Some _ => []
  end.

(** ** Environments used in the examples *)

Definition one_frame : list Byte.byte := [Byte.x01; Byte.x00].

Definition dquote : string := String (ascii_of_nat 34) EmptyString.

(** The JSON text Vosk returns for a transcription. *)
Definition vosk_json (key text : string) : string :=
  "{ " ++ dquote ++ key ++ dquote ++ " : " ++ dquote ++ text ++ dquote ++ " }".

(** Nothing raises, the model is present, the microphone delivers frames
    and every utterance is still in progress. *)
Definition calm : env :=
  mkEnv (fun _ _ => None) (fun _ => true) (fun _ => one_frame)
        (fun _ => false) (fun _ => vosk_json "text" "")
        (fun _ => vosk_json "partial" "turn").

(** As [calm], but the call made at instant [t] raises [e]. *)
Definition failing_at (t : nat) (e : exn) : env :=
  mkEnv (fun t' _ => if (t' =? t)%nat then Some e else None)
        (fun _ => true) (fun _ => one_frame)
        (fun _ => false) (fun _ => vosk_json "text" "")
        (fun _ => vosk_json "partial" "turn").

(** As [calm], but the call made at instant [t1] raises [e1] and the one
    made at instant [t2] raises [e2]. *)
Definition failing_twice (t1 : nat) (e1 : exn) (t2 : nat) (e2 : exn) : env :=
  mkEnv (fun t' _ => if (t' =? t1)%nat then Some e1
                     else if (t' =? t2)%nat then Some e2 else None)
        (fun _ => true) (fun _ => one_frame)
        (fun _ => false) (fun _ => vosk_json "text" "")
        (fun _ => vosk_json "partial" "turn").

(** Nothing raises but the model directory is absent. *)
Definition no_model : env :=
  mkEnv (fun _ _ => None) (fun _ => false) (fun _ => one_frame)
        (fun _ => false) (fun _ => vosk_json "text" "")
        (fun _ => vosk_json "partial" "turn").

(** Nothing raises; the first read returns no data, and the recogniser
    then hears "turn on the light": a partial result, then the final one. *)
Definition light_on : env :=
  mkEnv (fun _ _ => None) (fun _ => true)
        (fun t => if (t =? 8)%nat then [] else one_frame)
        (fun t => (12 <=? t)%nat)
        (fun _ => vosk_json "text" "turn on the light")
        (fun _ => vosk_json "partial" "turn on").

(** The recogniser hears "turn on the light" at once; the second read
    then raises [OSError] and [GPIO.cleanup()] raises [RuntimeError]. *)
Definition lit_then_stuck : env :=
  mkEnv (fun t _ => if (t =? 12)%nat then Some OSError
                    else if (t =? 13)%nat then Some RuntimeError else None)
        (fun _ => true) (fun _ => one_frame)
        (fun _ => true)
        (fun _ => vosk_json "text" "turn on the light")
        (fun _ => vosk_json "partial" "turn on").


(** ** Observations used for the whole program *)

(** The calls of [main] before the loop, in program order, when the model
    is present. *)
Definition startup_calls : list call :=
  gpio_setup_calls ++
  [Model MODEL_PATH; KaldiRecognizer AUDIO_RATE;
   PyAudio; PyAudio_open AUDIO_RATE BUFFER_SIZE; start_stream].

(** The state in which the loop is entered. *)
Definition loop_entry : world :=
  mkWorld 8 (Driven LOW)
    [Invoked GPIO_setmode None; Invoked (GPIO_setup LED_PIN) None;
     Invoked (GPIO_output LED_PIN LOW) None;
     Invoked (Model MODEL_PATH) None;
     Invoked (KaldiRecognizer AUDIO_RATE) None;
     Invoked PyAudio None;
     Invoked (PyAudio_open AUDIO_RATE BUFFER_SIZE) None;
     Invoked start_stream None;
     Printed "Listening for 'ON' or 'OFF' commands..."].

(** The calls that give a resource back. *)
Definition is_release (c : call) : bool :=
  match c with
  | GPIO_cleanup | stop_stream | close | terminate => true
  | _ => false
  end.

(** A call as the program text writes it: on the LED pin, with the
    configured path, rate and frame count, and with a frame that holds
    data. *)
Definition is_program_call (c : call) : bool :=
  match c with
  | GPIO_setup pin => (pin =? LED_PIN)%Z
  | GPIO_output pin _ => (pin =? LED_PIN)%Z
  | Model path => String.eqb path MODEL_PATH
  | KaldiRecognizer rate => (rate =? AUDIO_RATE)%Z
  | PyAudio_open rate frames =>
      andb (rate =? AUDIO_RATE)%Z (frames =? BUFFER_SIZE)%Z
  | read frames => (frames =? BUFFER_SIZE)%Z
  | AcceptWaveform data => negb (List.length data =? 0)%nat
  | _ => true
  end.

(** The calls one pass through the loop body can make, as a whole: a read
    alone (no data, or the read raised), or a read followed by the offer of
    a frame that holds data, then by one request for the partial or the
    final result, the final one then by at most one write to the LED
    pin. *)
Definition is_pass (cs : list call) : bool :=
  match cs with
  | read frames :: rest =>
      andb (frames =? BUFFER_SIZE)%Z
        match rest with
        | [] => true
        | AcceptWaveform data :: rest' =>
            andb (negb (List.length data =? 0)%nat)
              match rest' with
              | [] => true
              | [PartialResult] => true
              | [Result] => true
              | [Result; GPIO_output pin _] => (pin =? LED_PIN)%Z
              | _ => false
              end
        | _ => false
        end
  | _ => false
  end.

(** The level of the latest write to the LED pin that returned. *)
Fixpoint last_write (evs : list event) : option level :=
  match evs with
  | [] => None
  | ev :: evs' =>
      match last_write evs' with
      | Some l => Some l
      | None =>
          match ev with
          | Invoked (GPIO_output pin l) None =>
              if (pin =? LED_PIN)%Z then Some l else None
          | _ => None
          end
      end
  end.

(** The state of the pin after some events. *)
Definition led_after (evs : list event) (before : pin_state) : pin_state :=
  match last_write evs with
  | Some l => Driven l
  | None => before
  end.

(** A computation that only adds events, and only calls accepted by [P]. *)
Definition emits {A} (P : call -> bool) (m : M A) : Prop :=
  forall w,
    exists evs,
      trace (snd (m w)) = trace w ++ evs
      /\ forallb P (library_calls evs) = true.

(** ** Basic facts *)

Lemma events_since_app (w w' : world) (evs : list event) :
  trace w' = trace w ++ evs -> events_since w w' = evs.
Proof.
  intros H. unfold events_since. rewrite H.
  rewrite skipn_app, skipn_all, Nat.sub_diag. reflexivity.
Qed.

Lemma library_calls_app (a b : list event) :
  library_calls (a ++ b) = library_calls a ++ library_calls b.
Proof.
  induction a as [|[c r|l] a IH]; simpl; rewrite ?IH; reflexivity.
Qed.

(** The monad, one step at a time. *)

Lemma bind_assoc {A B C} (m : M A) (f : A -> M B) (g : B -> M C) (w : world) :
  bind (bind m f) g w = bind m (fun a => bind (f a) g) w.
Proof.
  unfold bind. destruct (m w) as [[a|e|] w1]; reflexivity.
Qed.

Lemma bind_print {B} (line : string) (k : unit -> M B) (w : world) :
  bind (print line) k w = k tt (log (Printed line) w).
Proof. reflexivity. Qed.

Lemma bind_ret {A B} (a : A) (k : A -> M B) (w : world) :
  bind (ret a) k w = k a w.
Proof. reflexivity. Qed.

Lemma bind_ask {A B} (E : env) (c : call) (answer : nat -> A) (k : A -> M B)
    (w : world) :
  bind (ask E c answer) k w =
  match raises E (clock w) c with
  | Some e => (Exc e, tick (log (Invoked c (Some e)) w))
  | None => k (answer (clock w)) (tick (effect c (log (Invoked c None) w)))
  end.
Proof.
  unfold bind, ask. destruct (raises E (clock w) c); reflexivity.
Qed.

Lemma bind_invoke {B} (E : env) (c : call) (k : unit -> M B) (w : world) :
  bind (invoke E c) k w =
  match raises E (clock w) c with
  | Some e => (Exc e, tick (log (Invoked c (Some e)) w))
  | None => k tt (tick (effect c (log (Invoked c None) w)))
  end.
Proof. apply bind_ask. Qed.

Lemma invoke_run (E : env) (c : call) (w : world) :
  invoke E c w =
  match raises E (clock w) c with
  | Some e => (Exc e, tick (log (Invoked c (Some e)) w))
  | None => (Val tt, tick (effect c (log (Invoked c None) w)))
  end.
Proof. reflexivity. Qed.

Lemma ask_run {A} (E : env) (c : call) (answer : nat -> A) (w : world) :
  ask E c answer w =
  match raises E (clock w) c with
  | Some e => (Exc e, tick (log (Invoked c (Some e)) w))
  | None => (Val (answer (clock w)), tick (effect c (log (Invoked c None) w)))
  end.
Proof. reflexivity. Qed.

(** Brings a world built by [tick], [log] and [effect] to its fields. *)
Ltac norm :=
  cbn [clock led trace fst snd log tick set_led effect];
  rewrite ?Z.eqb_refl;
  cbn [clock led trace fst snd log tick set_led].

(** Runs the next statement of a straight-line block. *)
Ltac step :=
  first [ rewrite bind_assoc
        | rewrite bind_print
        | rewrite bind_ret
        | rewrite bind_invoke
        | rewrite bind_ask
        | rewrite invoke_run
        | rewrite ask_run ];
  norm.

(** Case analysis on the next answer of the environment. *)
Ltac answer :=
  match goal with
  | H : raises ?E ?t ?c = _ |- context [raises ?E ?t ?c] => rewrite H
  | |- context [match raises ?E ?t ?c with _ => _ end] =>
      let R := fresh "R" in destruct (raises E t c) eqn:R
  end;
  norm.

Section Dispatch.

Variable E : env.

(** [handle_command] in terms of the keyword rule. *)
Lemma handle_command_rule (text : string) (w : world) :
  handle_command E text w =
  match command_level (keyword_rule text) with
  | None => (Val tt, w)
  | Some l =>
      (print (match l with
              | HIGH => "Command recognized: Turning LED ON"
              | LOW => "Command recognized: Turning LED OFF"
              end) ;;
       invoke E (GPIO_output LED_PIN l)) w
  end.
Proof.
  unfold handle_command, keyword_rule.
  destruct (PyStr.contains "on" text); [reflexivity|].
  destruct (PyStr.contains "off" text); reflexivity.
Qed.

Lemma handle_command_trace (text : string) (w : world) :
  trace (snd (handle_command E text w)) =
  trace w ++
  match command_level (keyword_rule text) with
  | None => []
  | Some l =>
      [Printed (match l with
                | HIGH => "Command recognized: Turning LED ON"
                | LOW => "Command recognized: Turning LED OFF"
                end);
       Invoked (GPIO_output LED_PIN l)
               (raises E (clock w) (GPIO_output LED_PIN l))]
  end.
Proof.
  rewrite handle_command_rule.
  destruct (command_level (keyword_rule text)) as [l|]; simpl.
  - step. step. answer; rewrite <- app_assoc; reflexivity.
  - now rewrite app_nil_r.
Qed.

Lemma handle_command_led (text : string) (w : world) :
  led (snd (handle_command E text w)) =
  match command_level (keyword_rule text) with
  | None => led w
  | Some l =>
      match raises E (clock w) (GPIO_output LED_PIN l) with
      | None => Driven l
      | Some _ => led w
      end
  end.
Proof.
  rewrite handle_command_rule.
  destruct (command_level (keyword_rule text)) as [l|]; simpl; [|reflexivity].
  step. step. answer; reflexivity.
Qed.

Lemma dispatch_calls (T : string) (w : world) :
  library_calls (events_since w (snd (dispatch E T w))) =
  command_calls (keyword_rule (PyStr.lower T)).
Proof.
  unfold dispatch, bind, print.
  rewrite (events_since_app w _
    (Printed ("Full result: " ++ T) ::
     match command_level (keyword_rule (PyStr.lower T)) with
     | None => []
     | Some l =>
         [Printed (match l with
                   | HIGH => "Command recognized: Turning LED ON"
                   | LOW => "Command recognized: Turning LED OFF"
                   end);
          Invoked (GPIO_output LED_PIN l)
                  (raises E (clock w) (GPIO_output LED_PIN l))]
     end)).
  - destruct (keyword_rule (PyStr.lower T)); reflexivity.
  - rewrite handle_command_trace. simpl. rewrite <- app_assoc. reflexivity.
Qed.

Lemma dispatch_led (T : string) (w : world) :
  led (snd (dispatch E T w)) =
  match command_level (keyword_rule (PyStr.lower T)) with
  | None => led w
  | Some l =>
      match raises E (clock w) (GPIO_output LED_PIN l) with
      | None => Driven l
      | Some _ => led w
      end
  end.
Proof.
  unfold dispatch, bind, print. rewrite handle_command_led. reflexivity.
Qed.

End Dispatch.

(** ** The claims *)

(** C1.  What [main] does with a final result [T] depends on [T] only
    through its lowercase form, by the keyword rule: the library calls made
    are [GPIO.output(LED_PIN, HIGH)] when the lowercase form contains "on",
    else [GPIO.output(LED_PIN, LOW)] when it contains "off", else none; the
    pin is driven at that level as soon as the call returns.  The four
    texts of the specification give TurnOn, TurnOff, no call, TurnOn. *)
Theorem C1_dispatch_keyword_rule :
  forall (E : env) (w : world) (T : string),
    library_calls (events_since w (snd (dispatch E T w))) =
      command_calls (keyword_rule (PyStr.lower T))
    /\ led (snd (dispatch E T w)) =
       match command_level (keyword_rule (PyStr.lower T)) with
       | None => led w
       | Some l =>
           match raises E (clock w) (GPIO_output LED_PIN l) with
           | None => Driven l
           | Some _ => led w
           end
       end
    /\ library_calls (events_since w (snd (dispatch E "Turn ON the light" w)))
       = [GPIO_output LED_PIN HIGH]
    /\ library_calls (events_since w (snd (dispatch E "please turn off" w)))
       = [GPIO_output LED_PIN LOW]
    /\ library_calls (events_since w (snd (dispatch E "hello world" w))) = []
    /\ library_calls (events_since w (snd (dispatch E "onion soup" w)))
       = [GPIO_output LED_PIN HIGH].
Proof.
  intros E w T.
  split; [apply dispatch_calls|].
  split; [apply dispatch_led|].
  repeat split; rewrite dispatch_calls; reflexivity.
Qed.

(** C9.  [handle_command] compares the text as it is given: a text with no
    lowercase "on" and no lowercase "off" makes it return without any call
    and without any change, whatever uppercase keywords the text holds.
    The text "TURN ON" is one: [handle_command] does nothing with it, and
    it is the lowercasing in [main] that turns it into a write of HIGH. *)
Theorem C9_handle_command_case_sensitive :
  forall (E : env) (w : world) (text : string),
    PyStr.contains "on" text = false ->
    PyStr.contains "off" text = false ->
    handle_command E text w = (Val tt, w)
    /\ library_calls (events_since w (snd (dispatch E text w))) =
       command_calls (keyword_rule (PyStr.lower text)).
Proof.
  intros E w text Hon Hoff. split.
  - unfold handle_command. rewrite Hon, Hoff. reflexivity.
  - apply dispatch_calls.
Qed.

Lemma C9_witness :
  PyStr.contains "on" "TURN ON" = false
  /\ PyStr.contains "off" "TURN ON" = false
  /\ handle_command calm "TURN ON" boot = (Val tt, boot)
  /\ library_calls (events_since boot (snd (dispatch calm "TURN ON" boot))) =
     [GPIO_output LED_PIN HIGH].
Proof.
  split; [reflexivity|]. split; [reflexivity|].
  exact (C9_handle_command_case_sensitive calm boot "TURN ON" eq_refl eq_refl).
Defined.

(** C8.  Two final results in a row that the keyword rule reads as TurnOn:
    once the first write has returned the pin is driven high, and it is
    still driven high after the second dispatch, whatever the state of the
    pin was before.  Nothing toggles. *)
Theorem C8_turn_on_idempotent :
  forall (E : env) (w : world) (T1 T2 : string),
    keyword_rule (PyStr.lower T1) = TurnOn ->
    keyword_rule (PyStr.lower T2) = TurnOn ->
    raises E (clock w) (GPIO_output LED_PIN HIGH) = None ->
    let w1 := snd (dispatch E T1 w) in
    let w2 := snd (dispatch E T2 w1) in
    led w1 = Driven HIGH /\ led w2 = Driven HIGH
    /\ actuator (led w1) = HIGH /\ actuator (led w2) = HIGH.
Proof.
  intros E w T1 T2 H1 H2 Hret w1 w2.
  assert (L1 : led w1 = Driven HIGH).
  { unfold w1. rewrite dispatch_led, H1. simpl. now rewrite Hret. }
  assert (L2 : led w2 = Driven HIGH).
  { unfold w2. rewrite dispatch_led, H2. simpl.
    destruct (raises E (clock w1) (GPIO_output LED_PIN HIGH)); [exact L1|reflexivity]. }
  rewrite L1, L2. repeat split.
Qed.

Lemma C8_witness :
  keyword_rule (PyStr.lower "Turn ON the light") = TurnOn
  /\ keyword_rule (PyStr.lower "onion soup") = TurnOn
  /\ raises calm (clock boot) (GPIO_output LED_PIN HIGH) = None
  /\ led (snd (dispatch calm "Turn ON the light" boot)) = Driven HIGH
  /\ led (snd (dispatch calm "onion soup"
                 (snd (dispatch calm "Turn ON the light" boot)))) = Driven HIGH.
Proof.
  split; [reflexivity|]. split; [reflexivity|]. split; [reflexivity|].
  pose proof (C8_turn_on_idempotent calm boot "Turn ON the light" "onion soup"
                eq_refl eq_refl eq_refl) as H.
  cbv zeta in H. destruct H as (H1 & H2 & _). split; assumption.
Defined.

Section LoopBody.

Variable E : env.

Lemma handle_command_returns_or_raises (text : string) (w : world) :
  fst (handle_command E text w) <> Pending.
Proof.
  rewrite handle_command_rule.
  destruct (command_level (keyword_rule text)) as [l|]; [|discriminate].
  step. step. answer; discriminate.
Qed.

Lemma handle_command_events (text : string) (w : world) :
  exists evs,
    trace (snd (handle_command E text w)) = trace w ++ evs
    /\ forallb is_loop_call (library_calls evs) = true
    /\ (List.length (filter is_actuator_write (library_calls evs)) <= 1)%nat
    /\ filter is_final_result (library_calls evs) = []
    /\ filter is_read (library_calls evs) = [].
Proof.
  eexists. split; [apply handle_command_trace|].
  destruct (command_level (keyword_rule text)) as [l|]; simpl; auto.
Qed.

(** One pass through the loop body returns or raises, adds only calls of
    the loop, and among them at most one GPIO write, at most one
    [Result] and exactly one [read]. *)
Lemma iteration_events (w : world) :
  exists evs,
    trace (snd (iteration E w)) = trace w ++ evs
    /\ forallb is_loop_call (library_calls evs) = true
    /\ (List.length (filter is_actuator_write (library_calls evs)) <= 1)%nat
    /\ (List.length (filter is_final_result (library_calls evs)) <= 1)%nat
    /\ List.length (filter is_read (library_calls evs)) = 1%nat
    /\ fst (iteration E w) <> Pending.
Proof.
  unfold iteration. step. answer.
  { eexists. split; [reflexivity|]. simpl. repeat split; auto; discriminate. }
  destruct (List.length (microphone E (clock w)) =? 0)%nat.
  { eexists. split; [reflexivity|]. simpl. repeat split; auto; discriminate. }
  step. answer.
  { eexists. split; [rewrite <- app_assoc; reflexivity|].
    simpl. repeat split; auto; discriminate. }
  destruct (utterance_complete E (S (clock w))).
  - step. answer.
    { eexists. split; [rewrite <- !app_assoc; reflexivity|].
      simpl. repeat split; auto; discriminate. }
    unfold dispatch. step.
    match goal with
    | |- context [handle_command E ?t ?w0] =>
        destruct (handle_command_events t w0) as (evs & Ht & Hl & Hw & Hr & Hd);
        pose proof (handle_command_returns_or_raises t w0) as Hp
    end.
    exists ([Invoked (read BUFFER_SIZE) None;
             Invoked (AcceptWaveform (microphone E (clock w))) None;
             Invoked Result None;
             Printed ("Full result: " ++ final_json E (S (S (clock w))))] ++ evs).
    split; [rewrite Ht; norm; rewrite <- !app_assoc; reflexivity|].
    rewrite library_calls_app, forallb_app, !filter_app, !length_app.
    rewrite Hl, Hr, Hd. simpl. repeat split; auto; lia.
  - step. answer.
    { eexists. split; [rewrite <- !app_assoc; reflexivity|].
      simpl. repeat split; auto; discriminate. }
    eexists. split; [unfold print; norm; rewrite <- !app_assoc; reflexivity|].
    simpl. repeat split; auto; discriminate.
Qed.

End LoopBody.

(** C10.  One pass through the loop body makes at most one GPIO write and
    asks the recogniser for at most one final result, in every environment
    and from every state. *)
Theorem C10_one_actuator_write_per_iteration :
  forall (E : env) (w : world),
    let evs := events_since w (snd (iteration E w)) in
    (List.length (filter is_actuator_write (library_calls evs)) <= 1)%nat
    /\ (List.length (filter is_final_result (library_calls evs)) <= 1)%nat.
Proof.
  intros E w evs.
  destruct (iteration_events E w) as (evs' & Ht & _ & Hw & Hr & _).
  unfold evs. rewrite (events_since_app _ _ _ Ht). split; assumption.
Qed.

(** C2.  A pass through the loop body in which [stream.read] returns data
    and [AcceptWaveform] returns false leaves the pin as it was and makes
    no GPIO write: it reads, offers the frame to the recogniser, asks for
    the partial result and, when that call returns, prints it. *)
Theorem C2_partial_never_dispatches :
  forall (E : env) (w : world),
    raises E (clock w) (read BUFFER_SIZE) = None ->
    microphone E (clock w) <> [] ->
    raises E (S (clock w)) (AcceptWaveform (microphone E (clock w))) = None ->
    utterance_complete E (S (clock w)) = false ->
    led (snd (iteration E w)) = led w
    /\ filter is_actuator_write
         (library_calls (events_since w (snd (iteration E w)))) = []
    /\ filter is_final_result
         (library_calls (events_since w (snd (iteration E w)))) = []
    /\ trace (snd (iteration E w)) =
       trace w ++
       [Invoked (read BUFFER_SIZE) None;
        Invoked (AcceptWaveform (microphone E (clock w))) None;
        Invoked PartialResult (raises E (S (S (clock w))) PartialResult)] ++
       match raises E (S (S (clock w))) PartialResult with
       | None => [Printed ("Partial result: " ++ partial_json E (S (S (clock w))))]
       | Some _ => []
       end.
Proof.
  intros E w Hread Hdata Haccept Hpartial.
  assert (Ht : trace (snd (iteration E w)) =
       trace w ++
       [Invoked (read BUFFER_SIZE) None;
        Invoked (AcceptWaveform (microphone E (clock w))) None;
        Invoked PartialResult (raises E (S (S (clock w))) PartialResult)] ++
       match raises E (S (S (clock w))) PartialResult with
       | None => [Printed ("Partial result: " ++ partial_json E (S (S (clock w))))]
       | Some _ => []
       end
     /\ led (snd (iteration E w)) = led w).
  { unfold iteration. step. answer.
    destruct (microphone E (clock w)) as [|b data] eqn:D; [congruence|].
    cbn [List.length Nat.eqb].
    step. answer. rewrite Hpartial. step.
    destruct (raises E (S (S (clock w))) PartialResult) eqn:R; norm.
    - split; [rewrite <- !app_assoc|]; reflexivity.
    - unfold print. norm. split; [rewrite <- !app_assoc|]; reflexivity. }
  destruct Ht as [Ht Hl].
  split; [exact Hl|].
  rewrite (events_since_app _ _ _ Ht).
  split; [|split; [|exact Ht]];
    destruct (raises E (S (S (clock w))) PartialResult); reflexivity.
Qed.

Lemma C2_witness :
  raises calm (clock boot) (read BUFFER_SIZE) = None
  /\ microphone calm (clock boot) <> []
  /\ led (snd (iteration calm boot)) = led boot
  /\ filter is_actuator_write
       (library_calls (events_since boot (snd (iteration calm boot)))) = [].
Proof.
  split; [reflexivity|]. split; [discriminate|].
  pose proof (C2_partial_never_dispatches calm boot eq_refl
                ltac:(discriminate) eq_refl eq_refl) as (H1 & H2 & _).
  split; assumption.
Defined.

(** C3.  A pass through the loop body in which [stream.read] returns no
    data returns at once: the only event is the read, the recogniser is not
    called, the pin and everything else are as before, and the loop goes on
    with its next pass. *)
Theorem C3_empty_frame_skipped :
  forall (E : env) (w : world),
    raises E (clock w) (read BUFFER_SIZE) = None ->
    microphone E (clock w) = [] ->
    iteration E w =
      (Val tt, mkWorld (S (clock w)) (led w)
                       (trace w ++ [Invoked (read BUFFER_SIZE) None]))
    /\ filter is_recognizer_call
         (library_calls (events_since w (snd (iteration E w)))) = []
    /\ forall fuel,
         capture_loop E (S fuel) w =
         capture_loop E fuel
           (mkWorld (S (clock w)) (led w)
                    (trace w ++ [Invoked (read BUFFER_SIZE) None])).
Proof.
  intros E w Hread Hdata.
  assert (Hi : iteration E w =
      (Val tt, mkWorld (S (clock w)) (led w)
                       (trace w ++ [Invoked (read BUFFER_SIZE) None]))).
  { unfold iteration. step. answer. rewrite Hdata. reflexivity. }
  split; [exact Hi|]. split.
  - rewrite Hi. cbn [snd].
    erewrite events_since_app by (cbn [trace]; reflexivity).
    reflexivity.
  - intros fuel. cbn [capture_loop]. unfold bind at 1. rewrite Hi. reflexivity.
Qed.

Lemma C3_witness :
  raises light_on 8 (read BUFFER_SIZE) = None
  /\ microphone light_on 8 = []
  /\ iteration light_on (snd (startup light_on boot)) =
     (Val tt,
      mkWorld 9 (Driven LOW)
        (trace (snd (startup light_on boot)) ++ [Invoked (read BUFFER_SIZE) None])).
Proof.
  split; [reflexivity|]. split; [reflexivity|].
  exact (proj1 (C3_empty_frame_skipped light_on (snd (startup light_on boot))
                  eq_refl eq_refl)).
Defined.

Section Lifetime.

Variable E : env.


(** [while True] has no normal exit. *)
Lemma capture_loop_never_returns (fuel : nat) :
  forall w a w', capture_loop E fuel w <> (Val a, w').
Proof.
  induction fuel as [|fuel IH]; intros w a w'.
  - discriminate.
  - cbn [capture_loop]. unfold bind.
    destruct (iteration E w) as [[[]|e|] w1]; try discriminate. apply IH.
Qed.

(** A run of the loop that has ended is not changed by more fuel. *)
Lemma capture_loop_more_fuel (fuel : nat) :
  forall w e w1,
    capture_loop E fuel w = (Exc e, w1) ->
    forall fuel', (fuel <= fuel')%nat -> capture_loop E fuel' w = (Exc e, w1).
Proof.
  induction fuel as [|fuel IH]; intros w e w1 H fuel' Hle.
  - discriminate.
  - destruct fuel' as [|fuel']; [lia|].
    cbn [capture_loop] in *. unfold bind in *.
    destruct (iteration E w) as [[[]|e0|] w2]; try discriminate; [|exact H].
    apply IH with (fuel' := fuel') in H; [exact H|lia].
Qed.

(** The [finally] block: it stops at the first call that raises. *)
Lemma shutdown_run (w : world) :
  fst (shutdown E w) =
    match first_failure E (clock w) shutdown_calls with
    | None => Val tt
    | Some e => Exc e
    end
  /\ trace (snd (shutdown E w)) =
     trace w ++ attempt E (clock w) shutdown_calls ++
     match first_failure E (clock w) shutdown_calls with
     | None => [Printed "Cleaned up and exiting..."]
     | Some _ => []
     end
  /\ led (snd (shutdown E w)) =
     match raises E (clock w) GPIO_cleanup with
     | None => Floating
     | Some _ => led w
     end.
Proof.
  unfold shutdown, shutdown_calls. cbn [first_failure attempt].
  step. answer; [repeat split|].
  step. answer; [repeat split; rewrite <- !app_assoc; reflexivity|].
  step. answer; [repeat split; rewrite <- !app_assoc; reflexivity|].
  step. answer; [repeat split; rewrite <- !app_assoc; reflexivity|].
  unfold print. norm. repeat split. rewrite <- !app_assoc. reflexivity.
Qed.

Lemma shutdown_returns_or_raises (w : world) :
  fst (shutdown E w) <> Pending.
Proof.
  rewrite (proj1 (shutdown_run w)).
  destruct (first_failure E (clock w) shutdown_calls); discriminate.
Qed.

(** The [try] statement when the loop has ended with exception [e]. *)
Lemma guarded_loop_exit (fuel : nat) (w w1 : world) (e : exn) :
  capture_loop E fuel w = (Exc e, w1) ->
  let w2 := if is_KeyboardInterrupt e
            then log (Printed "Program interrupted by user.") w1 else w1 in
  guarded_loop E fuel w =
    (match first_failure E (clock w1) shutdown_calls with
     | Some e' => Exc e'
     | None => if is_KeyboardInterrupt e then Val tt else Exc e
     end,
     snd (shutdown E w2)).
Proof.
  intros H w2. unfold guarded_loop, try_finally, try_except, on_interrupt.
  rewrite H. subst w2.
  destruct (is_KeyboardInterrupt e) eqn:K.
  - unfold print.
    destruct (shutdown_run (log (Printed "Program interrupted by user.") w1))
      as (Hr & _).
    cbn [clock log] in Hr.
    destruct (shutdown E (log (Printed "Program interrupted by user.") w1))
      as [r w3].
    cbn [fst snd] in *. subst r.
    destruct (first_failure E (clock w1) shutdown_calls); reflexivity.
  - destruct (shutdown_run w1) as (Hr & _).
    destruct (shutdown E w1) as [r w3].
    cbn [fst snd] in *. subst r.
    destruct (first_failure E (clock w1) shutdown_calls); reflexivity.
Qed.

(** The [try] statement while the loop is running. *)
Lemma guarded_loop_pending (fuel : nat) (w w1 : world) :
  capture_loop E fuel w = (Pending, w1) ->
  guarded_loop E fuel w = (Pending, w1).
Proof.
  intros H. unfold guarded_loop, try_finally, try_except. rewrite H.
  reflexivity.
Qed.

Lemma main_startup (fuel : nat) (w : world) :
  main E fuel w = bind (startup E) (fun _ => guarded_loop E fuel) w.
Proof.
  unfold main, startup, bind.
  destruct (setup_gpio E w) as [[[]|e|] w1]; try reflexivity.
  destruct (setup_recognizer E w1) as [[[]|e|] w2]; try reflexivity.
  destruct (setup_audio_stream E w2) as [[[]|e|] w3]; reflexivity.
Qed.

(** The state in which the loop is entered. *)
Lemma startup_returns (w0 : world) :
  startup E boot = (Val tt, w0) ->
  w0 = mkWorld 8 (Driven LOW)
         [Invoked GPIO_setmode None; Invoked (GPIO_setup LED_PIN) None;
          Invoked (GPIO_output LED_PIN LOW) None;
          Invoked (Model MODEL_PATH) None;
          Invoked (KaldiRecognizer AUDIO_RATE) None;
          Invoked PyAudio None;
          Invoked (PyAudio_open AUDIO_RATE BUFFER_SIZE) None;
          Invoked start_stream None;
          Printed "Listening for 'ON' or 'OFF' commands..."].
Proof.
  unfold startup, setup_gpio, setup_recognizer, setup_audio_stream.
  destruct (path_exists E MODEL_PATH); cbn [negb].
  - repeat step. repeat (answer; try discriminate).
    unfold boot. norm. intros H. injection H as <-. reflexivity.
  - repeat step. repeat (answer; try discriminate).
Qed.

End Lifetime.


Section Exit.

Variable E : env.

(** [main] from the exit of the loop on. *)
Lemma main_exit (fuel : nat) (w0 w1 : world) (e : exn) :
  startup E boot = (Val tt, w0) ->
  capture_loop E fuel w0 = (Exc e, w1) ->
  fst (main E fuel boot) =
    match first_failure E (clock w1) shutdown_calls with
    | Some e' => Exc e'
    | None => if is_KeyboardInterrupt e then Val tt else Exc e
    end
  /\ trace (snd (main E fuel boot)) = trace w1 ++ exit_events E e (clock w1)
  /\ led (snd (main E fuel boot)) =
     match raises E (clock w1) GPIO_cleanup with
     | None => Floating
     | Some _ => led w1
     end.
Proof.
  intros Hs Hl.
  assert (Hm : main E fuel boot = guarded_loop E fuel w0).
  { rewrite main_startup. unfold bind. rewrite Hs. reflexivity. }
  rewrite Hm, (guarded_loop_exit E fuel w0 w1 e Hl). cbn [fst snd].
  split; [reflexivity|]. unfold exit_events.
  destruct (is_KeyboardInterrupt e).
  - destruct (shutdown_run E (log (Printed "Program interrupted by user.") w1))
      as (_ & Ht & Hled).
    cbn [clock led trace log] in Ht, Hled. rewrite Ht, Hled.
    split; [|reflexivity]. rewrite <- !app_assoc. reflexivity.
  - destruct (shutdown_run E w1) as (_ & Ht & Hled).
    rewrite Ht, Hled. split; reflexivity.
Qed.

(** A run of [main] that got past startup and has ended left the loop by
    an exception. *)
Lemma main_ended (fuel : nat) (w0 : world) :
  startup E boot = (Val tt, w0) ->
  fst (main E fuel boot) <> Pending ->
  exists e w1, capture_loop E fuel w0 = (Exc e, w1).
Proof.
  intros Hs Hr.
  assert (Hm : main E fuel boot = guarded_loop E fuel w0).
  { rewrite main_startup. unfold bind. rewrite Hs. reflexivity. }
  rewrite Hm in Hr.
  destruct (capture_loop E fuel w0) as [[[]|e|] w1] eqn:Hl.
  - exfalso. exact (capture_loop_never_returns E fuel w0 tt w1 Hl).
  - exists e, w1. reflexivity.
  - rewrite (guarded_loop_pending E fuel w0 w1 Hl) in Hr. now elim Hr.
Qed.

Lemma attempt_shutdown_calls (t : nat) :
  filter is_cleanup (library_calls (attempt E t shutdown_calls)) = [GPIO_cleanup]
  /\ filter is_recognizer_call (library_calls (attempt E t shutdown_calls)) = []
  /\ (first_failure E t shutdown_calls = None ->
      attempt E t shutdown_calls =
      [Invoked GPIO_cleanup None; Invoked stop_stream None;
       Invoked close None; Invoked terminate None]).
Proof.
  unfold shutdown_calls. cbn [attempt first_failure].
  destruct (raises E t GPIO_cleanup); [repeat split; discriminate|].
  destruct (raises E (S t) stop_stream); [repeat split; discriminate|].
  destruct (raises E (S (S t)) close); [repeat split; discriminate|].
  destruct (raises E (S (S (S t))) terminate); repeat split; discriminate.
Qed.

(** A straight sequence of calls stops at its first call that raises. *)
Lemma attempt_stops (cs : list call) :
  forall (t k : nat) (c : call) (e : exn),
    nth_error cs k = Some c ->
    (forall j c', (j < k)%nat -> nth_error cs j = Some c' ->
                  raises E (t + j) c' = None) ->
    raises E (t + k) c = Some e ->
    library_calls (attempt E t cs) = firstn (S k) cs
    /\ first_failure E t cs = Some e.
Proof.
  induction cs as [|c0 cs IH]; intros t k c e Hk Hbefore Hraise.
  - destruct k; discriminate.
  - destruct k as [|k]; cbn [nth_error] in Hk.
    + injection Hk as ->. rewrite Nat.add_0_r in Hraise.
      cbn [attempt first_failure]. rewrite Hraise. split; reflexivity.
    + pose proof (Hbefore 0%nat c0 (Nat.lt_0_succ k) eq_refl) as H0.
      rewrite Nat.add_0_r in H0.
      cbn [attempt first_failure]. rewrite H0.
      destruct (IH (S t) k c e Hk) as [Ha Hf].
      * intros j c' Hj Hn. rewrite Nat.add_succ_l, <- Nat.add_succ_r.
        apply Hbefore; [lia|exact Hn].
      * rewrite Nat.add_succ_l, <- Nat.add_succ_r. exact Hraise.
      * split; [|exact Hf]. cbn [library_calls]. rewrite Ha. reflexivity.
Qed.

End Exit.




(** C5, as the code has it.  When the model path does not exist, [main]
    ends during startup with an exception: the events of the run are those
    of [setup_gpio], so the loop is not reached (no read), and the only
    GPIO write there can be is the initial [GPIO.output(LED_PIN, LOW)] of
    [setup_gpio], which leaves the actuator Low.  When [setup_gpio] has
    returned, the exception is [FileNotFoundError]. *)
Theorem C5_missing_model_stops_startup :
  forall (E : env) (fuel : nat),
    path_exists E MODEL_PATH = false ->
    fst (main E fuel boot) =
      Exc (match first_failure E 0 gpio_setup_calls with
           | Some e => e
           | None => model_not_found
           end)
    /\ trace (snd (main E fuel boot)) = attempt E 0 gpio_setup_calls
    /\ filter is_read (library_calls (trace (snd (main E fuel boot)))) = []
    /\ (forall c,
          In c (filter is_actuator_write
                  (library_calls (trace (snd (main E fuel boot))))) ->
          c = GPIO_output LED_PIN LOW)
    /\ actuator (led (snd (main E fuel boot))) = LOW
    /\ (first_failure E 0 gpio_setup_calls = None ->
        fst (main E fuel boot) = Exc model_not_found
        /\ library_calls (trace (snd (main E fuel boot))) = gpio_setup_calls).
Proof.
  intros E fuel Hpath.
  unfold main, setup_gpio, setup_recognizer, gpio_setup_calls.
  rewrite Hpath. cbn [negb attempt first_failure].
  repeat step. unfold boot. norm.
  destruct (raises E 0 GPIO_setmode).
  { cbn. repeat split; try tauto; discriminate. }
  destruct (raises E 1 (GPIO_setup LED_PIN)).
  { cbn. repeat split; try tauto; discriminate. }
  destruct (raises E 2 (GPIO_output LED_PIN LOW)).
  { cbn. repeat split; try discriminate. intros c [<-|[]]. reflexivity. }
  cbn. repeat split. intros c [<-|[]]. reflexivity.
Qed.

(** C5 as stated fails: with the model absent and no call raising, [main]
    ends with [FileNotFoundError] after having written LOW to the pin. *)
Lemma C5_counterexample :
  path_exists no_model MODEL_PATH = false
  /\ fst (main no_model 1 boot) = Exc model_not_found
  /\ filter is_actuator_write (library_calls (trace (snd (main no_model 1 boot))))
     = [GPIO_output LED_PIN LOW]
  /\ filter is_actuator_write (library_calls (trace (snd (main no_model 1 boot))))
     <> [].
Proof. vm_compute. repeat split. discriminate. Qed.

Lemma C5_witness :
  path_exists no_model MODEL_PATH = false
  /\ fst (main no_model 1 boot) = Exc model_not_found
  /\ filter is_read (library_calls (trace (snd (main no_model 1 boot)))) = []
  /\ actuator (led (snd (main no_model 1 boot))) = LOW.
Proof.
  split; [reflexivity|].
  destruct (C5_missing_model_stops_startup no_model 1 eq_refl)
    as (_ & _ & Hread & _ & Hled & Hok).
  split; [exact (proj1 (Hok eq_refl))|]. split; assumption.
Defined.

(** C6, as the code has it.  When the loop is ended by
    [KeyboardInterrupt], the handler prints its line, the [finally] block
    runs, and the interrupt goes no further: the outcome of [main] is that
    of the block.  When no call of the block raises, [main] returns
    normally, after the same four calls as on any other exit, with the
    actuator Low; this holds for every amount of fuel that lets the loop
    reach the interrupt.  When a call of the block raises, [main] ends
    with that exception. *)
Theorem C6_interrupt_ends_normally :
  forall (E : env) (fuel : nat) (w0 w1 : world),
    startup E boot = (Val tt, w0) ->
    capture_loop E fuel w0 = (Exc KeyboardInterrupt, w1) ->
    forall fuel', (fuel <= fuel')%nat ->
      fst (main E fuel' boot) =
        match first_failure E (clock w1) shutdown_calls with
        | Some e' => Exc e'
        | None => Val tt
        end
      /\ (first_failure E (clock w1) shutdown_calls = None ->
          fst (main E fuel' boot) = Val tt
          /\ trace (snd (main E fuel' boot)) =
             trace w1 ++
             [Printed "Program interrupted by user.";
              Invoked GPIO_cleanup None; Invoked stop_stream None;
              Invoked close None; Invoked terminate None;
              Printed "Cleaned up and exiting..."]
          /\ actuator (led (snd (main E fuel' boot))) = LOW).
Proof.
  intros E fuel w0 w1 Hs Hl fuel' Hle.
  pose proof (capture_loop_more_fuel E fuel w0 _ w1 Hl fuel' Hle) as Hl'.
  destruct (main_exit E fuel' w0 w1 _ Hs Hl') as (Hr & Ht & Hled).
  cbn [is_KeyboardInterrupt] in Hr. split; [exact Hr|].
  intros Hnone.
  destruct (attempt_shutdown_calls E (clock w1)) as (_ & _ & Hall).
  rewrite Hr, Ht, Hled. unfold exit_events.
  rewrite (Hall Hnone), Hnone. cbn [is_KeyboardInterrupt app].
  split; [reflexivity|]. split; [reflexivity|].
  unfold shutdown_calls in Hnone. cbn [first_failure] in Hnone.
  destruct (raises E (clock w1) GPIO_cleanup); [discriminate|reflexivity].
Qed.

(** C6 as stated fails: the operator interrupts the first read, the
    handler catches the interrupt, and then [stream.stop_stream()] raises
    [OSError]; [main] does not complete normally, it ends with that
    exception. *)
Lemma C6_counterexample :
  fst (capture_loop (failing_twice 8 KeyboardInterrupt 10 OSError) 1 loop_entry)
    = Exc KeyboardInterrupt
  /\ fst (main (failing_twice 8 KeyboardInterrupt 10 OSError) 1 boot)
     = Exc OSError
  /\ fst (main (failing_twice 8 KeyboardInterrupt 10 OSError) 1 boot)
     <> Val tt.
Proof. vm_compute. repeat split. discriminate. Qed.

Lemma C6_witness :
  startup (failing_at 8 KeyboardInterrupt) boot =
    (Val tt, snd (startup (failing_at 8 KeyboardInterrupt) boot))
  /\ capture_loop (failing_at 8 KeyboardInterrupt) 1
       (snd (startup (failing_at 8 KeyboardInterrupt) boot)) =
     (Exc KeyboardInterrupt,
      snd (capture_loop (failing_at 8 KeyboardInterrupt) 1
             (snd (startup (failing_at 8 KeyboardInterrupt) boot))))
  /\ first_failure (failing_at 8 KeyboardInterrupt) 9 shutdown_calls = None
  /\ fst (main (failing_at 8 KeyboardInterrupt) 5 boot) = Val tt.
Proof.
  split; [reflexivity|]. split; [reflexivity|]. split; [reflexivity|].
  destruct (C6_interrupt_ends_normally (failing_at 8 KeyboardInterrupt) 1
              (snd (startup (failing_at 8 KeyboardInterrupt) boot))
              (snd (capture_loop (failing_at 8 KeyboardInterrupt) 1
                      (snd (startup (failing_at 8 KeyboardInterrupt) boot))))
              eq_refl eq_refl 5%nat ltac:(lia)) as (_ & H).
  exact (proj1 (H eq_refl)).
Defined.

(** C7, as the code has it.  The [finally] block is not best effort.  Its
    calls run in program order and the first one that raises ends it: the
    later calls are not made, and its exception leaves [main] in place of
    whatever ended the loop.  When none raises, all four calls are made and
    the outcome is the primary one: an interrupt ends [main] normally, any
    other exception of the loop leaves [main]. *)
Theorem C7_shutdown_stops_at_first_failure :
  forall (E : env) (fuel : nat) (w0 w1 : world) (e : exn),
    startup E boot = (Val tt, w0) ->
    capture_loop E fuel w0 = (Exc e, w1) ->
    library_calls (events_since w1 (snd (main E fuel boot))) =
      library_calls (attempt E (clock w1) shutdown_calls)
    /\ (first_failure E (clock w1) shutdown_calls = None ->
        library_calls (events_since w1 (snd (main E fuel boot))) = shutdown_calls
        /\ fst (main E fuel boot) =
           (if is_KeyboardInterrupt e then Val tt else Exc e))
    /\ (forall (k : nat) (c : call) (e' : exn),
          nth_error shutdown_calls k = Some c ->
          (forall j c', (j < k)%nat -> nth_error shutdown_calls j = Some c' ->
                        raises E (clock w1 + j) c' = None) ->
          raises E (clock w1 + k) c = Some e' ->
          library_calls (events_since w1 (snd (main E fuel boot))) =
            firstn (S k) shutdown_calls
          /\ fst (main E fuel boot) = Exc e').
Proof.
  intros E fuel w0 w1 e Hs Hl.
  destruct (main_exit E fuel w0 w1 e Hs Hl) as (Hr & Ht & _).
  assert (Hcalls : library_calls (events_since w1 (snd (main E fuel boot))) =
                   library_calls (attempt E (clock w1) shutdown_calls)).
  { rewrite (events_since_app _ _ _ Ht). unfold exit_events.
    rewrite !library_calls_app.
    destruct (is_KeyboardInterrupt e);
      destruct (first_failure E (clock w1) shutdown_calls);
      cbn [library_calls app]; rewrite ?app_nil_r; reflexivity. }
  split; [exact Hcalls|]. split.
  - intros Hnone.
    destruct (attempt_shutdown_calls E (clock w1)) as (_ & _ & Hall).
    rewrite Hcalls, (Hall Hnone), Hr, Hnone. split; reflexivity.
  - intros k c e' Hk Hbefore Hraise.
    destruct (attempt_stops E shutdown_calls (clock w1) k c e' Hk Hbefore Hraise)
      as (Ha & Hf).
    rewrite Hcalls, Ha, Hr, Hf. split; reflexivity.
Qed.

(** C7 as stated fails: the first read raises [OSError] and then
    [GPIO.cleanup()] raises [RuntimeError]; [main] ends with the second
    exception and the audio stream is neither stopped nor closed. *)
Lemma C7_counterexample :
  fst (capture_loop (failing_twice 8 OSError 9 RuntimeError) 1
         (snd (startup (failing_twice 8 OSError 9 RuntimeError) boot)))
    = Exc OSError
  /\ fst (main (failing_twice 8 OSError 9 RuntimeError) 1 boot)
     = Exc RuntimeError
  /\ library_calls
       (skipn 9 (trace (snd (main (failing_twice 8 OSError 9 RuntimeError)
                               1 boot))))
     = [read BUFFER_SIZE; GPIO_cleanup].
Proof. vm_compute. repeat split. Qed.

Lemma C7_witness :
  startup (failing_twice 8 OSError 10 RuntimeError) boot =
    (Val tt, snd (startup (failing_twice 8 OSError 10 RuntimeError) boot))
  /\ raises (failing_twice 8 OSError 10 RuntimeError) 10 stop_stream
     = Some RuntimeError
  /\ library_calls
       (events_since
          (snd (capture_loop (failing_twice 8 OSError 10 RuntimeError) 1
                  (snd (startup (failing_twice 8 OSError 10 RuntimeError) boot))))
          (snd (main (failing_twice 8 OSError 10 RuntimeError) 1 boot)))
     = [GPIO_cleanup; stop_stream]
  /\ fst (main (failing_twice 8 OSError 10 RuntimeError) 1 boot)
     = Exc RuntimeError.
Proof.
  split; [reflexivity|]. split; [reflexivity|].
  destruct (C7_shutdown_stops_at_first_failure
              (failing_twice 8 OSError 10 RuntimeError) 1
              (snd (startup (failing_twice 8 OSError 10 RuntimeError) boot))
              (snd (capture_loop (failing_twice 8 OSError 10 RuntimeError) 1
                      (snd (startup (failing_twice 8 OSError 10 RuntimeError) boot))))
              OSError eq_refl eq_refl) as (_ & _ & H).
  apply (H 1%nat stop_stream RuntimeError eq_refl).
  - intros j c' Hj Hn. destruct j as [|j]; [|lia].
    injection Hn as <-. reflexivity.
  - reflexivity.
Defined.


(** ** Further properties of the program *)

(** *** Which calls the program makes *)

Section Emits.

Variable E : env.
Variable P : call -> bool.

Lemma emits_ret {A} (a : A) : emits P (ret a).
Proof. intros w. exists []. split; [symmetry; apply app_nil_r|reflexivity]. Qed.

Lemma emits_raise {A} (e : exn) : emits P (@raise A e).
Proof. intros w. exists []. split; [symmetry; apply app_nil_r|reflexivity]. Qed.

Lemma emits_pending {A} : emits P (@pending A).
Proof. intros w. exists []. split; [symmetry; apply app_nil_r|reflexivity]. Qed.

Lemma emits_print (line : string) : emits P (print line).
Proof. intros w. exists [Printed line]. split; reflexivity. Qed.

Lemma emits_ask {A} (c : call) (answer : nat -> A) :
  P c = true -> emits P (ask E c answer).
Proof.
  intros Hc w. rewrite ask_run.
  destruct (raises E (clock w) c) as [e|]; norm.
  - exists [Invoked c (Some e)]. split; [reflexivity|].
    cbn [library_calls forallb]. now rewrite Hc.
  - exists [Invoked c None]. split.
    + destruct c; cbn [effect]; try reflexivity;
        destruct (_ =? _)%Z; reflexivity.
    + cbn [library_calls forallb]. now rewrite Hc.
Qed.

Lemma emits_invoke (c : call) : P c = true -> emits P (invoke E c).
Proof. apply emits_ask. Qed.

Lemma emits_bind {A B} (m : M A) (k : A -> M B) :
  emits P m -> (forall a, emits P (k a)) -> emits P (bind m k).
Proof.
  intros Hm Hk w. unfold bind.
  destruct (Hm w) as (evs & Ht & Hp).
  destruct (m w) as [[a|e|] w1]; cbn [snd] in Ht;
    try (exists evs; split; assumption).
  destruct (Hk a w1) as (evs' & Ht' & Hp').
  exists (evs ++ evs'). split.
  - rewrite Ht', Ht. symmetry. apply app_assoc.
  - rewrite library_calls_app, forallb_app, Hp, Hp'. reflexivity.
Qed.

Lemma emits_try_except {A} (body handler : M A) (catches : exn -> bool) :
  emits P body -> emits P handler -> emits P (try_except body catches handler).
Proof.
  intros Hb Hh w. unfold try_except.
  destruct (Hb w) as (evs & Ht & Hp).
  destruct (body w) as [[a|e|] w1]; cbn [snd] in Ht;
    try (exists evs; split; assumption).
  destruct (catches e); [|exists evs; split; assumption].
  destruct (Hh w1) as (evs' & Ht' & Hp').
  exists (evs ++ evs'). split.
  - rewrite Ht', Ht. symmetry. apply app_assoc.
  - rewrite library_calls_app, forallb_app, Hp, Hp'. reflexivity.
Qed.

Lemma emits_try_finally {A} (body : M A) (fin : M unit) :
  emits P body -> emits P fin -> emits P (try_finally body fin).
Proof.
  intros Hb Hf w. unfold try_finally.
  destruct (Hb w) as (evs & Ht & Hp).
  destruct (body w) as [[a|e|] w1]; cbn [snd] in Ht;
    try (exists evs; split; assumption);
    destruct (Hf w1) as (evs' & Ht' & Hp');
    exists (evs ++ evs');
    (split;
     [destruct (fin w1) as [[[]|e'|] w2]; cbn [snd] in *;
      rewrite Ht', Ht; symmetry; apply app_assoc
     |rewrite library_calls_app, forallb_app, Hp, Hp'; reflexivity]).
Qed.

End Emits.

Section Discipline.

Variable E : env.

Lemma handle_command_emits (text : string) :
  emits is_program_call (handle_command E text).
Proof.
  unfold handle_command.
  destruct (PyStr.contains "on" text);
    [|destruct (PyStr.contains "off" text)];
    try apply emits_ret;
    (apply emits_bind; [apply emits_print|intros _; now apply emits_invoke]).
Qed.

Lemma iteration_emits : emits is_program_call (iteration E).
Proof.
  unfold iteration.
  apply emits_bind; [now apply emits_ask|]. intros data.
  destruct (List.length data =? 0)%nat eqn:D; [apply emits_ret|].
  apply emits_bind.
  { apply emits_ask. cbn [is_program_call]. now rewrite D. }
  intros [|].
  - apply emits_bind; [now apply emits_ask|]. intros result.
    unfold dispatch. apply emits_bind; [apply emits_print|]. intros _.
    apply handle_command_emits.
  - apply emits_bind; [now apply emits_ask|]. intros partial_result.
    apply emits_print.
Qed.

Lemma capture_loop_emits (fuel : nat) :
  emits is_program_call (capture_loop E fuel).
Proof.
  induction fuel as [|fuel IH]; cbn [capture_loop].
  - apply emits_pending.
  - apply emits_bind; [apply iteration_emits|intros _; exact IH].
Qed.

Lemma setup_gpio_emits : emits is_program_call (setup_gpio E).
Proof.
  unfold setup_gpio.
  apply emits_bind; [now apply emits_invoke|intros _].
  apply emits_bind; [now apply emits_invoke|intros _].
  now apply emits_invoke.
Qed.

Lemma setup_recognizer_emits : emits is_program_call (setup_recognizer E).
Proof.
  unfold setup_recognizer.
  destruct (negb (path_exists E MODEL_PATH)); [apply emits_raise|].
  apply emits_bind; [now apply emits_invoke|intros _; now apply emits_invoke].
Qed.

Lemma setup_audio_stream_emits : emits is_program_call (setup_audio_stream E).
Proof.
  unfold setup_audio_stream.
  apply emits_bind; [now apply emits_invoke|intros _].
  apply emits_bind; [now apply emits_invoke|intros _].
  now apply emits_invoke.
Qed.

Lemma shutdown_emits : emits is_program_call (shutdown E).
Proof.
  unfold shutdown.
  do 4 (apply emits_bind; [now apply emits_invoke|intros _]).
  apply emits_print.
Qed.

Lemma main_emits (fuel : nat) : emits is_program_call (main E fuel).
Proof.
  unfold main.
  apply emits_bind; [apply setup_gpio_emits|intros _].
  apply emits_bind; [apply setup_recognizer_emits|intros _].
  apply emits_bind; [apply setup_audio_stream_emits|intros _].
  apply emits_bind; [apply emits_print|intros _].
  unfold guarded_loop, on_interrupt.
  apply emits_try_finally; [|apply shutdown_emits].
  apply emits_try_except; [apply capture_loop_emits|apply emits_print].
Qed.

End Discipline.

(** X1.  Whatever the libraries do and however long it runs, [main] only
    makes the calls of its text with its own constants: GPIO set-up and
    writes on pin 18 only, the model at the configured path, the recogniser
    and the stream at 16000 Hz, reads of 4096 frames, and no frame without
    data is ever offered to the recogniser. *)
Theorem X1_main_call_discipline :
  forall (E : env) (fuel : nat),
    forallb is_program_call
      (library_calls (trace (snd (main E fuel boot)))) = true.
Proof.
  intros E fuel.
  destruct (main_emits E fuel boot) as (evs & Ht & Hp).
  rewrite Ht. exact Hp.
Qed.

(** *** Startup *)

Section Startup.

Variable E : env.

Lemma startup_fails (e : exn) (w1 : world) :
  startup E boot = (Exc e, w1) ->
  filter is_release (library_calls (trace w1)) = []
  /\ filter is_read (library_calls (trace w1)) = []
  /\ actuator (led w1) = LOW.
Proof.
  unfold startup, setup_gpio, setup_recognizer, setup_audio_stream.
  destruct (path_exists E MODEL_PATH); cbn [negb];
    repeat step; unfold boot; norm; repeat answer;
    intros H; try discriminate; injection H as <- <-;
    repeat split.
Qed.

Lemma startup_succeeds :
  path_exists E MODEL_PATH = true ->
  first_failure E 0 startup_calls = None ->
  startup E boot = (Val tt, loop_entry).
Proof.
  intros Hpath Hff.
  unfold startup_calls, gpio_setup_calls in Hff.
  cbn [app first_failure] in Hff.
  repeat match type of Hff with
         | match raises E ?t ?c with _ => _ end = None =>
             let R := fresh "R" in
             destruct (raises E t c) eqn:R; [discriminate|]
         end.
  unfold startup, setup_gpio, setup_recognizer, setup_audio_stream.
  rewrite Hpath. cbn [negb].
  repeat step. unfold boot. norm. repeat answer. reflexivity.
Qed.

Lemma startup_success_needs (w0 : world) :
  startup E boot = (Val tt, w0) ->
  path_exists E MODEL_PATH = true
  /\ first_failure E 0 startup_calls = None.
Proof.
  unfold startup, setup_gpio, setup_recognizer, setup_audio_stream.
  unfold startup_calls, gpio_setup_calls. cbn [app first_failure].
  destruct (path_exists E MODEL_PATH); cbn [negb];
    repeat step; unfold boot; norm; repeat answer;
    intros H; try discriminate; split; reflexivity.
Qed.

Lemma first_failure_quiet (t : nat) (cs : list call) :
  (forall t' c, raises E t' c = None) -> first_failure E t cs = None.
Proof.
  intros Hq. revert t.
  induction cs as [|c cs IH]; intros t; cbn [first_failure];
    [reflexivity|]. rewrite Hq. apply IH.
Qed.

End Startup.

(** X2.  An exception during startup (a GPIO, model, recogniser or audio
    call that raises, an interrupt among them, or the missing model) leaves
    [main] as it is: the [try] statement is not entered, so no read is
    made and nothing is given back, neither [GPIO.cleanup()] nor, when the
    audio system was already created, [p.terminate()].  The actuator is
    Low at that point. *)
Theorem X2_startup_failure_releases_nothing :
  forall (E : env) (fuel : nat) (e : exn) (w1 : world),
    startup E boot = (Exc e, w1) ->
    main E fuel boot = (Exc e, w1)
    /\ filter is_release (library_calls (trace w1)) = []
    /\ filter is_read (library_calls (trace w1)) = []
    /\ actuator (led w1) = LOW.
Proof.
  intros E fuel e w1 H. split.
  - rewrite main_startup. unfold bind. rewrite H. reflexivity.
  - exact (startup_fails E e w1 H).
Qed.

Lemma X2_witness :
  startup (failing_at 6 OSError) boot =
    (Exc OSError, snd (startup (failing_at 6 OSError) boot))
  /\ main (failing_at 6 OSError) 3 boot =
     (Exc OSError, snd (startup (failing_at 6 OSError) boot))
  /\ filter is_release
       (library_calls (trace (snd (startup (failing_at 6 OSError) boot)))) = [].
Proof.
  split; [reflexivity|].
  destruct (X2_startup_failure_releases_nothing (failing_at 6 OSError) 3
              OSError (snd (startup (failing_at 6 OSError) boot)) eq_refl)
    as (Hm & Hr & _).
  split; assumption.
Defined.

(** X3.  Startup reaches the loop exactly when the model path exists and
    none of its eight library calls raises; the loop is then entered after
    these eight calls, in program order, with the LED pin driven low and
    the listening line printed. *)
Theorem X3_startup_reaches_loop :
  forall (E : env),
    (startup E boot = (Val tt, loop_entry) <->
     path_exists E MODEL_PATH = true
     /\ first_failure E 0 startup_calls = None)
    /\ (forall w0, startup E boot = (Val tt, w0) -> w0 = loop_entry)
    /\ library_calls (trace loop_entry) = startup_calls.
Proof.
  intros E. split; [split|split].
  - apply startup_success_needs.
  - intros [Hp Hf]. now apply startup_succeeds.
  - intros w0 H. exact (startup_returns E w0 H).
  - reflexivity.
Qed.

Lemma X3_witness :
  path_exists calm MODEL_PATH = true
  /\ first_failure calm 0 startup_calls = None
  /\ startup calm boot = (Val tt, loop_entry).
Proof.
  split; [reflexivity|]. split; [reflexivity|].
  exact (proj2 (proj1 (X3_startup_reaches_loop calm)) (conj eq_refl eq_refl)).
Defined.

(** *** The loop as a whole *)

Lemma last_write_app (a b : list event) :
  last_write (a ++ b) =
  match last_write b with
  | Some l => Some l
  | None => last_write a
  end.
Proof.
  induction a as [|ev a IH]; cbn [app last_write].
  - destruct (last_write b); reflexivity.
  - rewrite IH. destruct (last_write b); reflexivity.
Qed.

Lemma led_after_app (a b : list event) (p : pin_state) :
  led_after (a ++ b) p = led_after b (led_after a p).
Proof.
  unfold led_after. rewrite last_write_app.
  destruct (last_write b); reflexivity.
Qed.

Section Passes.

Variable E : env.

(** Closes a case of the analysis of one pass, [D] being the test of the
    frame's length. *)
Ltac pass_case D :=
  eexists; split; [norm; rewrite <- ?app_assoc; reflexivity|];
  unfold led_after;
  cbn [library_calls is_pass last_write filter is_actuator_write app];
  rewrite ?D, ?Z.eqb_refl; cbn [negb andb];
  repeat split; try reflexivity; try discriminate.

Lemma iteration_shape (w : world) :
  exists evs,
    trace (snd (iteration E w)) = trace w ++ evs
    /\ is_pass (library_calls evs) = true
    /\ led (snd (iteration E w)) = led_after evs (led w)
    /\ (utterance_complete E (S (clock w)) = false ->
        filter is_actuator_write (library_calls evs) = [])
    /\ ((forall t c, raises E t c = None) -> fst (iteration E w) = Val tt).
Proof.
  unfold iteration. step. answer.
  { pass_case R. intros H. now rewrite H in R. }
  destruct (List.length (microphone E (clock w)) =? 0)%nat eqn:D.
  { pass_case D. }
  step. answer.
  { pass_case D. intros H. now rewrite H in R0. }
  destruct (utterance_complete E (S (clock w))).
  - step. answer.
    { pass_case D. intros H. now rewrite H in R1. }
    unfold dispatch. step. rewrite handle_command_rule.
    destruct (command_level (keyword_rule
                (PyStr.lower (final_json E (S (S (clock w))))))) as [l|].
    + step. step. answer.
      * pass_case D. intros H. now rewrite H in R2.
      * pass_case D.
    + pass_case D.
  - step. answer.
    { pass_case D. intros H. now rewrite H in R1. }
    unfold print. pass_case D.
Qed.

(** A run of the loop, whatever its length and its end. *)
Lemma capture_loop_shape (fuel : nat) :
  forall w,
    exists evs passes,
      trace (snd (capture_loop E fuel w)) = trace w ++ evs
      /\ library_calls evs = concat passes
      /\ forallb is_pass passes = true
      /\ (List.length passes <= fuel)%nat
      /\ led (snd (capture_loop E fuel w)) = led_after evs (led w)
      /\ ((forall t, utterance_complete E t = false) ->
          filter is_actuator_write (library_calls evs) = [])
      /\ ((forall t c, raises E t c = None) ->
          fst (capture_loop E fuel w) = Pending
          /\ List.length passes = fuel).
Proof.
  induction fuel as [|fuel IH]; intros w.
  - exists [], []. cbn. rewrite app_nil_r. repeat split; auto.
  - cbn [capture_loop]. unfold bind.
    destruct (iteration_shape w) as (evs & Ht & Hp & Hled & Hpart & Hquiet).
    destruct (iteration E w) as [[[]|e|] w1] eqn:Hi; cbn [fst snd] in *.
    + destruct (IH w1) as (evs' & passes & Ht' & Hc & Hps & Hlen & Hled' & Hpart' & Hquiet').
      exists (evs ++ evs'), (library_calls evs :: passes).
      split; [rewrite Ht', Ht; symmetry; apply app_assoc|].
      split; [rewrite library_calls_app, Hc; reflexivity|].
      split; [cbn [forallb]; now rewrite Hp, Hps|].
      split; [cbn [List.length]; lia|].
      split; [rewrite Hled', Hled; symmetry; apply led_after_app|].
      split.
      * intros Hnever. rewrite library_calls_app, filter_app.
        rewrite (Hpart (Hnever _)), (Hpart' Hnever). reflexivity.
      * intros Hq. destruct (Hquiet' Hq) as [Hpend Hn].
        split; [exact Hpend|]. cbn [List.length]. now rewrite Hn.
    + exists evs, [library_calls evs].
      split; [exact Ht|]. split; [cbn; now rewrite app_nil_r|].
      split; [cbn [forallb]; now rewrite Hp|].
      split; [cbn [List.length]; lia|].
      split; [exact Hled|]. split.
      * intros Hnever. exact (Hpart (Hnever _)).
      * intros Hq. discriminate (Hquiet Hq).
    + exists evs, [library_calls evs].
      split; [exact Ht|]. split; [cbn; now rewrite app_nil_r|].
      split; [cbn [forallb]; now rewrite Hp|].
      split; [cbn [List.length]; lia|].
      split; [exact Hled|]. split.
      * intros Hnever. exact (Hpart (Hnever _)).
      * intros Hq. discriminate (Hquiet Hq).
Qed.

End Passes.

Lemma no_write_no_level (evs : list event) :
  filter is_actuator_write (library_calls evs) = [] -> last_write evs = None.
Proof.
  induction evs as [|[c r|line] evs IH]; cbn [library_calls filter last_write];
    [reflexivity| |intros H; now rewrite (IH H)].
  destruct c; cbn [is_actuator_write]; try discriminate;
    intros H; rewrite (IH H); reflexivity.
Qed.

Lemma pass_reads_once (cs : list call) :
  is_pass cs = true -> List.length (filter is_read cs) = 1%nat.
Proof.
  destruct cs as [|c1 cs]; [discriminate|].
  destruct c1; try discriminate. cbn [is_pass filter is_read List.length].
  intros H. apply andb_true_iff in H as [_ H]. f_equal.
  destruct cs as [|c2 cs]; [reflexivity|].
  destruct c2; try discriminate. apply andb_true_iff in H as [_ H].
  destruct cs as [|c3 cs]; [reflexivity|].
  destruct c3; try discriminate.
  - destruct cs as [|c4 cs]; [reflexivity|].
    destruct c4; try discriminate. destruct cs; [reflexivity|discriminate].
  - destruct cs; [reflexivity|discriminate].
Qed.

Lemma passes_read_once_each (passes : list (list call)) :
  forallb is_pass passes = true ->
  List.length (filter is_read (concat passes)) = List.length passes.
Proof.
  induction passes as [|cs passes IH]; cbn [forallb concat List.length];
    [reflexivity|].
  intros H. apply andb_true_iff in H as [Hc Hps].
  rewrite filter_app, length_app, (pass_reads_once cs Hc), (IH Hps).
  reflexivity.
Qed.

(** X4.  The calls of any run of the loop, from any state and in any
    environment, are a sequence of at most [fuel] passes, each of one of
    five shapes: a read alone; a read and the offer of the frame; these two
    and a request for the partial result; these two and a request for the
    final result; these three and one write to the LED pin.  So every
    write of the loop comes straight after a final result, every frame
    offered holds data, and each pass reads once. *)
Theorem X4_loop_is_a_sequence_of_passes :
  forall (E : env) (fuel : nat) (w : world),
    exists passes,
      library_calls (events_since w (snd (capture_loop E fuel w))) =
        concat passes
      /\ forallb is_pass passes = true
      /\ (List.length passes <= fuel)%nat
      /\ List.length
           (filter is_read
              (library_calls (events_since w (snd (capture_loop E fuel w)))))
         = List.length passes.
Proof.
  intros E fuel w.
  destruct (capture_loop_shape E fuel w)
    as (evs & passes & Ht & Hc & Hps & Hlen & _).
  exists passes. rewrite (events_since_app _ _ _ Ht), Hc.
  repeat split; try assumption. now apply passes_read_once_each.
Qed.

(** X5.  After any run of the loop the LED pin is at the level of the
    latest [GPIO.output] that returned during the run, and as it was
    before the run when there was none: a write that raised, a partial
    result or a text without keyword changes nothing. *)
Theorem X5_pin_follows_latest_write :
  forall (E : env) (fuel : nat) (w : world),
    led (snd (capture_loop E fuel w)) =
    led_after (events_since w (snd (capture_loop E fuel w))) (led w).
Proof.
  intros E fuel w.
  destruct (capture_loop_shape E fuel w)
    as (evs & passes & Ht & _ & _ & _ & Hled & _).
  rewrite (events_since_app _ _ _ Ht). exact Hled.
Qed.

(** X6.  As long as [AcceptWaveform] keeps returning false, that is while
    the recogniser has only partial results, the loop makes no GPIO write
    and leaves the pin as it was, however many frames it reads and however
    it ends. *)
Theorem X6_partials_never_move_the_pin :
  forall (E : env) (fuel : nat) (w : world),
    (forall t, utterance_complete E t = false) ->
    filter is_actuator_write
      (library_calls (events_since w (snd (capture_loop E fuel w)))) = []
    /\ led (snd (capture_loop E fuel w)) = led w.
Proof.
  intros E fuel w Hnever.
  destruct (capture_loop_shape E fuel w)
    as (evs & passes & Ht & _ & _ & _ & Hled & Hpart & _).
  rewrite (events_since_app _ _ _ Ht).
  split; [exact (Hpart Hnever)|].
  rewrite Hled. unfold led_after.
  now rewrite (no_write_no_level evs (Hpart Hnever)).
Qed.

Lemma X6_witness :
  (forall t, utterance_complete calm t = false)
  /\ led (snd (capture_loop calm 5 loop_entry)) = led loop_entry.
Proof.
  split; [reflexivity|].
  exact (proj2 (X6_partials_never_move_the_pin calm 5 loop_entry
                  (fun _ => eq_refl))).
Defined.

(** X7.  The program does not end by itself: with the model present and no
    library call raising, [main] is still running after any number of
    passes, having read one frame in each. *)
Theorem X7_main_runs_until_a_call_raises :
  forall (E : env),
    path_exists E MODEL_PATH = true ->
    (forall t c, raises E t c = None) ->
    forall fuel,
      fst (main E fuel boot) = Pending
      /\ List.length
           (filter is_read (library_calls (trace (snd (main E fuel boot)))))
         = fuel.
Proof.
  intros E Hpath Hq fuel.
  pose proof (startup_succeeds E Hpath (first_failure_quiet E 0 _ Hq)) as Hs.
  destruct (capture_loop_shape E fuel loop_entry)
    as (evs & passes & Ht & Hc & Hps & _ & _ & _ & Hquiet).
  destruct (Hquiet Hq) as [Hpend Hn].
  assert (Hm : main E fuel boot = capture_loop E fuel loop_entry).
  { rewrite main_startup. unfold bind. rewrite Hs.
    destruct (capture_loop E fuel loop_entry) as [r w1] eqn:Hl.
    cbn [fst] in Hpend. subst r. now apply guarded_loop_pending. }
  rewrite Hm. split; [exact Hpend|].
  rewrite Ht, library_calls_app, filter_app, length_app, Hc.
  rewrite (passes_read_once_each passes Hps), Hn. reflexivity.
Qed.

Lemma X7_witness :
  path_exists calm MODEL_PATH = true
  /\ (forall t c, raises calm t c = None)
  /\ fst (main calm 7 boot) = Pending.
Proof.
  split; [reflexivity|]. split; [reflexivity|].
  exact (proj1 (X7_main_runs_until_a_call_raises calm eq_refl
                  (fun _ _ => eq_refl) 7%nat)).
Defined.

(** X8.  [main] returns normally in one case only: startup has reached the
    loop, the loop was ended by [KeyboardInterrupt], and none of the four
    release calls raised.  Every other end of [main] is an exception. *)
Theorem X8_normal_return_means_interrupt :
  forall (E : env) (fuel : nat),
    fst (main E fuel boot) = Val tt ->
    startup E boot = (Val tt, loop_entry)
    /\ (exists w1,
          capture_loop E fuel loop_entry = (Exc KeyboardInterrupt, w1)
          /\ first_failure E (clock w1) shutdown_calls = None).
Proof.
  intros E fuel Hret.
  destruct (startup E boot) as [[[]|e|] w0] eqn:Hs.
  - pose proof (startup_returns E w0 Hs) as ->. split; [reflexivity|].
    assert (Hnp : fst (main E fuel boot) <> Pending) by (rewrite Hret; discriminate).
    destruct (main_ended E fuel loop_entry Hs Hnp) as (e & w1 & Hl).
    destruct (main_exit E fuel loop_entry w1 e Hs Hl) as (Hr & _).
    rewrite Hret in Hr. exists w1.
    destruct (first_failure E (clock w1) shutdown_calls); [discriminate|].
    destruct e; try discriminate. split; [exact Hl|reflexivity].
  - rewrite main_startup in Hret. unfold bind in Hret. rewrite Hs in Hret.
    discriminate.
  - rewrite main_startup in Hret. unfold bind in Hret. rewrite Hs in Hret.
    discriminate.
Qed.

Lemma X8_witness :
  fst (main (failing_at 11 KeyboardInterrupt) 4 boot) = Val tt
  /\ exists w1,
      capture_loop (failing_at 11 KeyboardInterrupt) 4 loop_entry =
      (Exc KeyboardInterrupt, w1).
Proof.
  split; [reflexivity|].
  destruct (X8_normal_return_means_interrupt
              (failing_at 11 KeyboardInterrupt) 4 eq_refl)
    as (_ & w1 & Hl & _).
  exists w1. exact Hl.
Defined.

(** *** Keywords *)

Lemma prefix_app (a : string) :
  forall s,
    String.prefix a s = true <-> exists post, s = (a ++ post)%string.
Proof.
  induction a as [|c a IH]; intros s.
  - split; [intros _; exists s; reflexivity|intros _; destruct s; reflexivity].
  - destruct s as [|c' s]; cbn [String.prefix].
    + split; [discriminate|intros [post H]; discriminate].
    + destruct (ascii_dec c c') as [->|Hne].
      * rewrite IH. split; intros [post H]; exists post.
        -- cbn. now rewrite H.
        -- cbn in H. now injection H.
      * split; [discriminate|].
        intros [post H]. cbn in H. injection H as H _. now elim Hne.
Qed.

(** [needle in s] holds exactly when [needle] occurs somewhere in [s]. *)
Lemma contains_occurs (needle : string) :
  forall s,
    PyStr.contains needle s = true <->
    exists pre post, s = (pre ++ needle ++ post)%string.
Proof.
  induction s as [|c s IH]; cbn [PyStr.contains].
  - rewrite orb_false_r, prefix_app. split.
    + intros [post H]. exists EmptyString, post. exact H.
    + intros (pre & post & H). destruct pre; [|discriminate].
      exists post. exact H.
  - rewrite orb_true_iff, prefix_app, IH. split.
    + intros [[post H]|(pre & post & H)].
      * exists EmptyString, post. exact H.
      * exists (String c pre), post. cbn. now rewrite H.
    + intros (pre & post & H). destruct pre as [|c0 pre].
      * left. exists post. exact H.
      * right. exists pre, post. cbn in H. now injection H.
Qed.

Lemma handle_command_calls (E : env) (text : string) (w : world) :
  library_calls (events_since w (snd (handle_command E text w))) =
  command_calls (keyword_rule text).
Proof.
  rewrite (events_since_app _ _ _ (handle_command_trace E text w)).
  destruct (keyword_rule text); reflexivity.
Qed.

(** X9.  [handle_command] looks for its keywords anywhere in the text,
    inside longer words as well: it writes HIGH exactly when "on" occurs
    somewhere in the text, whether or not "off" occurs too; it writes LOW
    exactly when "off" occurs and "on" does not; and it makes no call
    exactly when neither occurs. *)
Theorem X9_keywords_match_anywhere :
  forall (E : env) (w : world) (text : string),
    let calls :=
      library_calls (events_since w (snd (handle_command E text w))) in
    let occurs (k : string) :=
      exists pre post, text = (pre ++ k ++ post)%string in
    (calls = [GPIO_output LED_PIN HIGH] <-> occurs "on"%string)
    /\ (calls = [GPIO_output LED_PIN LOW] <->
        occurs "off"%string /\ ~ occurs "on"%string)
    /\ (calls = [] <-> ~ occurs "on"%string /\ ~ occurs "off"%string).
Proof.
  intros E w text calls occurs. unfold calls, occurs.
  rewrite handle_command_calls. unfold keyword_rule.
  rewrite <- !contains_occurs.
  destruct (PyStr.contains "on" text); destruct (PyStr.contains "off" text);
    cbn [command_calls]; repeat split; try discriminate; try tauto;
    try (intros [H1 H2]; first [discriminate | now elim H1 | now elim H2]);
    intros H; discriminate.
Qed.

Lemma lower_char_idempotent (c : ascii) :
  PyStr.lower_char (PyStr.lower_char c) = PyStr.lower_char c.
Proof. destruct c as [[] [] [] [] [] [] [] []]; reflexivity. Qed.

Lemma lower_idempotent (s : string) :
  PyStr.lower (PyStr.lower s) = PyStr.lower s.
Proof.
  induction s as [|c s IH]; cbn [PyStr.lower]; [reflexivity|].
  now rewrite lower_char_idempotent, IH.
Qed.

(** X10.  Lowercasing is idempotent, so the command [main] derives from a
    final result does not depend on whether the recogniser returned the
    text already in lowercase: the calls made and the state of the pin
    are the same for a text and for its lowercase form. *)
Theorem X10_dispatch_ignores_prior_lowercasing :
  forall (E : env) (w : world) (T : string),
    PyStr.lower (PyStr.lower T) = PyStr.lower T
    /\ library_calls (events_since w (snd (dispatch E (PyStr.lower T) w))) =
       library_calls (events_since w (snd (dispatch E T w)))
    /\ led (snd (dispatch E (PyStr.lower T) w)) = led (snd (dispatch E T w)).
Proof.
  intros E w T. split; [apply lower_idempotent|].
  rewrite !dispatch_calls, !dispatch_led, lower_idempotent.
  split; reflexivity.
Qed.

(** *** Set-up of the pin and failure of the clean-up *)

(** X11.  [setup_gpio] makes its three calls in program order and stops at
    the first that raises.  Whenever it returns, the LED pin is an output
    driven low, whatever it was before; and it never raises the actuator:
    from a state where the actuator is Low it ends with the actuator Low
    in every case. *)
Theorem X11_setup_gpio_drives_low :
  forall (E : env) (w : world),
    trace (snd (setup_gpio E w)) =
      trace w ++ attempt E (clock w) gpio_setup_calls
    /\ fst (setup_gpio E w) =
       match first_failure E (clock w) gpio_setup_calls with
       | None => Val tt
       | Some e => Exc e
       end
    /\ (fst (setup_gpio E w) = Val tt -> led (snd (setup_gpio E w)) = Driven LOW)
    /\ (actuator (led w) = LOW -> actuator (led (snd (setup_gpio E w))) = LOW).
Proof.
  intros E w. unfold setup_gpio, gpio_setup_calls.
  cbn [attempt first_failure].
  step. answer; [repeat split; try discriminate; auto|].
  step. answer;
    [repeat split; try discriminate; auto; rewrite <- !app_assoc; reflexivity|].
  step. answer;
    repeat split; try discriminate; auto; rewrite <- !app_assoc; reflexivity.
Qed.

Lemma X11_witness :
  fst (setup_gpio calm (mkWorld 0 (Driven HIGH) [])) = Val tt
  /\ led (snd (setup_gpio calm (mkWorld 0 (Driven HIGH) []))) = Driven LOW
  /\ actuator (led boot) = LOW
  /\ actuator (led (snd (setup_gpio (failing_at 1 RuntimeError) boot))) = LOW.
Proof.
  split; [reflexivity|].
  split.
  - exact (proj1 (proj2 (proj2
      (X11_setup_gpio_drives_low calm (mkWorld 0 (Driven HIGH) [])))) eq_refl).
  - split; [reflexivity|].
    exact (proj2 (proj2 (proj2
      (X11_setup_gpio_drives_low (failing_at 1 RuntimeError) boot))) eq_refl).
Defined.

(** X12.  When [GPIO.cleanup()] raises at the exit of the loop, nothing
    else is given back and [main] ends with that exception, the LED pin
    staying at the level of the latest write that returned during the
    loop (low when there was none): a lit LED stays lit. *)
Theorem X12_failed_cleanup_leaves_the_pin :
  forall (E : env) (fuel : nat) (w1 : world) (e e' : exn),
    startup E boot = (Val tt, loop_entry) ->
    capture_loop E fuel loop_entry = (Exc e, w1) ->
    raises E (clock w1) GPIO_cleanup = Some e' ->
    fst (main E fuel boot) = Exc e'
    /\ filter is_release
         (library_calls (events_since w1 (snd (main E fuel boot))))
       = [GPIO_cleanup]
    /\ led (snd (main E fuel boot)) =
       led_after (events_since loop_entry w1) (Driven LOW).
Proof.
  intros E fuel w1 e e' Hs Hl Hc.
  destruct (main_exit E fuel loop_entry w1 e Hs Hl) as (Hr & Ht & Hled).
  destruct (capture_loop_shape E fuel loop_entry)
    as (evs & passes & Hev & _ & _ & _ & Hpin & _).
  rewrite Hl in Hev, Hpin. cbn [snd] in Hev, Hpin.
  rewrite (events_since_app _ _ _ Ht), (events_since_app _ _ _ Hev).
  rewrite Hr, Hled, Hc, Hpin. unfold exit_events, shutdown_calls.
  cbn [first_failure attempt]. rewrite Hc.
  split; [reflexivity|]. split; [|reflexivity].
  destruct (is_KeyboardInterrupt e); reflexivity.
Qed.

Lemma X12_witness :
  startup lit_then_stuck boot = (Val tt, loop_entry)
  /\ fst (capture_loop lit_then_stuck 2 loop_entry) = Exc OSError
  /\ raises lit_then_stuck 13 GPIO_cleanup = Some RuntimeError
  /\ fst (main lit_then_stuck 2 boot) = Exc RuntimeError
  /\ led (snd (main lit_then_stuck 2 boot)) = Driven HIGH.
Proof.
  split; [reflexivity|]. split; [reflexivity|]. split; [reflexivity|].
  destruct (X12_failed_cleanup_leaves_the_pin lit_then_stuck 2
              (snd (capture_loop lit_then_stuck 2 loop_entry))
              OSError RuntimeError eq_refl eq_refl eq_refl)
    as (Hr & _ & Hled).
  split; [exact Hr|]. rewrite Hled. reflexivity.
Defined.

Lemma X9_witness :
  (exists pre post,
     "push the button off"%string = (pre ++ "on" ++ post)%string)
  /\ library_calls
       (events_since boot (snd (handle_command calm "push the button off" boot)))
     = [GPIO_output LED_PIN HIGH].
Proof.
  assert (H : exists pre post,
            "push the button off"%string = (pre ++ "on" ++ post)%string).
  { exists "push the butt"%string, " off"%string. reflexivity. }
  split; [exact H|].
  destruct (X9_keywords_match_anywhere calm boot "push the button off")
    as (Hon & _).
  exact (proj2 Hon H).
Defined.
